(** * Structural-syntax checker of [commands/paas_reporter.py]

    A shallow embedding of [validate_file_size] and
    [basic_yaml_syntax_check], and the properties of the line scanner and
    of its indentation tracker; then of [validate_absolute_path],
    [validate_yaml_file] and [main], with what they print.

    Text is a [string] whose characters are the code points U+0000 to
    U+00FF; the character classes below are Python's ([str.isspace], and
    [\w], [\s] of [re] on [str] patterns) on that range. *)

From Stdlib Require Import String Ascii List Arith ZArith Bool Lia.
From Stdlib Require Import Sorting.Sorted DecimalString.
Import ListNotations.

Local Open Scope string_scope.
Local Open Scope list_scope.
Local Open Scope nat_scope.

(** ** Python string operations *)

Module PyStr.

Definition TAB : ascii := "009"%char.
Definition NL : ascii := "010"%char.

Definition between (lo hi n : nat) : bool := (lo <=? n) && (n <=? hi).

(** [str.isspace] on one character; also the class [\s] of [re]. *)
Definition isspace (c : ascii) : bool :=
  let n := nat_of_ascii c in
  between 9 13 n || between 28 32 n || (n =? 133) || (n =? 160).

(** [str.isalnum] on one character. *)
Definition isalnum (c : ascii) : bool :=
  let n := nat_of_ascii c in
  between 48 57 n || between 65 90 n || between 97 122 n
  || (n =? 170) || between 178 179 n || (n =? 181) || between 185 186 n
  || between 188 190 n || between 192 214 n || between 216 246 n
  || between 248 255 n.

(** The class [\w] of [re]: alphanumeric or underscore. *)
Definition isword (c : ascii) : bool := isalnum c || (c =? "_")%char.

Definition is_empty (s : string) : bool :=
  match s with EmptyString => true | String _ _ => false end.

(** [s.lstrip()] *)
Fixpoint lstrip (s : string) : string :=
  match s with
  | EmptyString => EmptyString
  | String c s' => if isspace c then lstrip s' else s
  end.

(** [s.rstrip()] *)
Fixpoint rstrip (s : string) : string :=
  match s with
  | EmptyString => EmptyString
  | String c s' =>
      let r := rstrip s' in
      if isspace c && is_empty r then EmptyString else String c r
  end.

(** [s.strip()] *)
Definition strip (s : string) : string := rstrip (lstrip s).

(** [c in s] for a one-character [c] *)
Fixpoint contains (c : ascii) (s : string) : bool :=
  match s with
  | EmptyString => false
  | String d s' => (d =? c)%char || contains c s'
  end.

(** [s.startswith(c)] for a one-character [c] *)
Definition startswith (c : ascii) (s : string) : bool :=
  match s with
  | EmptyString => false
  | String d _ => (d =? c)%char
  end.

(** [s.split(sep)] for a one-character [sep]; never the empty list. *)
Fixpoint split (sep : ascii) (s : string) : list string :=
  match s with
  | EmptyString => [EmptyString]
  | String c s' =>
      if (c =? sep)%char then EmptyString :: split sep s'
      else match split sep s' with
           | piece :: pieces => String c piece :: pieces
           | [] => [String c EmptyString]
           end
  end.

(** [s.split(sep, 1)]: at most one cut, at the first [sep]. *)
Fixpoint split1 (sep : ascii) (s : string) : list string :=
  match s with
  | EmptyString => [EmptyString]
  | String c s' =>
      if (c =? sep)%char then [EmptyString; s']
      else match split1 sep s' with
           | piece :: pieces => String c piece :: pieces
           | [] => [String c EmptyString]
           end
  end.

(** [sep.join(pieces)] *)
Fixpoint join (sep : ascii) (pieces : list string) : string :=
  match pieces with
  | [] => EmptyString
  | [p] => p
  | p :: ps => (p ++ String sep (join sep ps))%string
  end.

(** [re.search(r'[^\w\s-]', s)] as a truth value. *)
Fixpoint search_not_word_space_hyphen (s : string) : bool :=
  match s with
  | EmptyString => false
  | String c s' =>
      negb (isword c || isspace c || (c =? "-")%char)
      || search_not_word_space_hyphen s'
  end.

(** [str(n)] *)
Definition str_of_nat (n : nat) : string :=
  NilZero.string_of_uint (Nat.to_uint n).

End PyStr.
Import PyStr.

(** ** File gate: [validate_file_size] *)

Module FileGate.

(** What [os.path.getsize(filepath)] does: it returns the size, or it
    raises; [OSError] is the class the function's handler names. *)
Inductive exn : Type :=
| OSError (msg : string)
| OtherError (msg : string).

Inductive getsize_result : Type :=
| Size (file_size : Z)
| Raise (e : exn).

(** What a call does: it returns a value, or an exception leaves it. *)
Inductive outcome (A : Type) : Type :=
| Returns (a : A)
| Propagates (e : exn).
Arguments Returns {A} a.
Arguments Propagates {A} e.

Definition default_max_size_bytes : Z := 1048576%Z.

Definition validate_file_size_with
    (getsize : getsize_result) (max_size_bytes : Z) : outcome bool :=
  match getsize with
  | Size file_size =>
      if (file_size >? max_size_bytes)%Z then Returns false
      else Returns true
  | Raise (OSError _) => Returns false
  | Raise e => Propagates e
  end.

(** The call with [max_size_bytes] left at its default. *)
Definition validate_file_size (getsize : getsize_result) : outcome bool :=
  validate_file_size_with getsize default_max_size_bytes.

End FileGate.

(** ** The scanner: [basic_yaml_syntax_check] *)

Inductive Reason : Type :=
| MissingDelimiterOrListMarker
| InvalidKeyCharacter (key : string)
| TabCharacterFound
| InconsistentIndentation.

Inductive Verdict : Type :=
| Valid
| Invalid (line_num : nat) (reason : Reason).

(** The two local variables of the loop.  The Python list used as a stack
    is kept with its top (the end of the Python list) at the head:
    [append] is a cons, [pop] takes the head. *)
Record Tracker : Type := mkTracker {
  indentation_stack : list nat;
  current_indent : nat
}.

Definition bottom_to_top (t : Tracker) : list nat := rev (indentation_stack t).
Definition top (t : Tracker) : option nat := hd_error (indentation_stack t).

Definition initial : Tracker := mkTracker [] 0.

(** A step of the loop body either goes on with a tracker or returns. *)
Inductive step (A : Type) : Type :=
| Go (a : A)
| Return (reason : Reason).
Arguments Go {A} a.
Arguments Return {A} reason.

Definition bind {A B : Type} (m : step A) (k : A -> step B) : step B :=
  match m with
  | Go a => k a
  | Return r => Return r
  end.

Notation "m ;; k" := (bind m (fun _ => k))
  (at level 61, right associativity).

Definition return_if (b : bool) (r : Reason) : step unit :=
  if b then Return r else Go tt.

(** [while indentation_stack and indent < current_indent:
        current_indent = indentation_stack.pop()] *)
Fixpoint pop_while (indent current : nat) (stack : list nat) : Tracker :=
  match stack with
  | [] => mkTracker [] current
  | popped :: rest =>
      if indent <? current then pop_while indent popped rest
      else mkTracker stack current
  end.

(** The indentation part of the loop body. *)
Definition observe (indent : nat) (t : Tracker) : step Tracker :=
  let stack := indentation_stack t in
  let current := current_indent t in
  if current <? indent then Go (mkTracker (current :: stack) indent)
  else if indent <? current then
    return_if (negb (existsb (Nat.eqb indent) stack)) InconsistentIndentation ;;
    let t' := pop_while indent current stack in
    return_if (negb (indent =? current_indent t')) InconsistentIndentation ;;
    Go t'
  else Go t.

(** [not stripped or stripped.startswith('#')] *)
Definition skipped (line : string) : bool :=
  let stripped := strip line in
  is_empty stripped || startswith "#" stripped.

(** [len(line) - len(line.lstrip())] *)
Definition indent_of (line : string) : nat :=
  String.length line - String.length (lstrip line).

(** [line.split(':', 1)[0].strip()] *)
Definition key_of (line : string) : string :=
  strip (hd EmptyString (split1 ":" line)).

Definition check_delimiter (line : string) : step unit :=
  if negb (contains ":" line) && negb (startswith "-" (strip line)) then
    if negb (is_empty (strip line)) && negb (startswith "#" (strip line))
    then Return MissingDelimiterOrListMarker
    else Go tt
  else Go tt.

Definition check_key (line : string) : step unit :=
  if contains ":" line then
    let key := key_of line in
    return_if (search_not_word_space_hyphen key) (InvalidKeyCharacter key)
  else Go tt.

Definition check_tab (line : string) : step unit :=
  return_if (contains TAB line) TabCharacterFound.

(** The three checks on the text of a line, in the order of the source. *)
Definition check_shape (line : string) : step unit :=
  check_delimiter line ;; check_key line ;; check_tab line.

(** One iteration of the [for] loop. *)
Definition scan_line (line : string) (t : Tracker) : step Tracker :=
  if skipped line then Go t
  else check_shape line ;; observe (indent_of line) t.

(** The [for] loop over [enumerate(lines, 1)], from line number [line_num]. *)
Fixpoint scan_lines (line_num : nat) (t : Tracker) (lines : list string)
  : Verdict :=
  match lines with
  | [] => Valid
  | line :: rest =>
      match scan_line line t with
      | Return reason => Invalid line_num reason
      | Go t' => scan_lines (S line_num) t' rest
      end
  end.

Definition basic_yaml_syntax_check (content : string) : Verdict :=
  scan_lines 1 initial (split NL content).

(** The tracker after the loop has gone through [lines] without returning. *)
Fixpoint tracker_after (t : Tracker) (lines : list string) : option Tracker :=
  match lines with
  | [] => Some t
  | line :: rest =>
      match scan_line line t with
      | Return _ => None
      | Go t' => tracker_after t' rest
      end
  end.

(** The pair [(is_valid, error_message)] the Python function returns. *)
Definition error_message (line_num : nat) (reason : Reason) : string :=
  ("Line " ++ str_of_nat line_num ++ ": " ++
   match reason with
   | MissingDelimiterOrListMarker =>
       "Missing colon in key-value pair or not a list item"
   | InvalidKeyCharacter key => "Invalid character in key '" ++ key ++ "'"
   | TabCharacterFound =>
       "Tab character found (YAML uses spaces for indentation)"
   | InconsistentIndentation => "Inconsistent indentation"
   end)%string.

Definition as_tuple (v : Verdict) : bool * string :=
  match v with
  | Valid => (true, EmptyString)
  | Invalid line_num reason => (false, error_message line_num reason)
  end.

(** The function together with what it writes to the process-wide log:
    a debug record when it starts, then either the error record before
    [return False, error_msg] or the debug record before [return True, ""]. *)
Inductive level : Type := DEBUG | ERROR.

Definition Log : Type := list (level * string).

Definition basic_yaml_syntax_check_logged (content : string) (log : Log)
  : (bool * string) * Log :=
  let log := log ++ [(DEBUG, "Starting YAML syntax check")] in
  match basic_yaml_syntax_check content with
  | Valid =>
      (as_tuple Valid,
       log ++ [(DEBUG, "YAML syntax check completed successfully")])
  | Invalid line_num reason =>
      (as_tuple (Invalid line_num reason),
       log ++ [(ERROR,
                ("YAML syntax error: " ++ error_message line_num reason)%string)])
  end.

(** ** The file checks and the batch loop: [validate_absolute_path],
    [validate_file_size], [validate_yaml_file], [main]

    What these functions print and how they end.  The records they write
    to the log are left out.  The file system is a parameter and does not
    change during a run. *)

Module Driver.

(** The classes the handlers of the source tell apart; the first three are
    [OSError] and its subclasses. *)
Inductive exn_class : Type :=
| FileNotFoundError
| PermissionError
| OtherOSError
| UnicodeDecodeError
| OtherException.

(** An exception: its class and [str(e)]. *)
Record py_exn : Type := mk_exn {
  exn_cls : exn_class;
  exn_str : string
}.

Definition is_OSError (c : exn_class) : bool :=
  match c with
  | FileNotFoundError | PermissionError | OtherOSError => true
  | UnicodeDecodeError | OtherException => false
  end.

(** What the functions ask of the file system: [os.path.isfile],
    [os.path.getsize], and [open(path, 'r', encoding='utf-8')] followed by
    reading the whole text. *)
Record FileSystem : Type := mkFS {
  isfile : string -> bool;
  getsize : string -> Z + py_exn;
  read_text : string -> string + py_exn
}.

(** How a call ends: it returns, an exception leaves it, or [sys.exit]. *)
Inductive result (A : Type) : Type :=
| Done (a : A)
| Raised (e : py_exn)
| Exited (code : nat).
Arguments Done {A} a.
Arguments Raised {A} e.
Arguments Exited {A} code.

(** The arguments of the [print] calls, in order, and how the call ends. *)
Definition io (A : Type) : Type := list string * result A.

Definition ret {A : Type} (a : A) : io A := ([], Done a).
Definition print (s : string) : io unit := ([s], Done tt).
Definition raise {A : Type} (e : py_exn) : io A := ([], Raised e).
Definition sys_exit {A : Type} (code : nat) : io A := ([], Exited code).

Definition io_bind {A B : Type} (m : io A) (k : A -> io B) : io B :=
  match m with
  | (out, Done a) => let (out', r) := k a in (out ++ out', r)
  | (out, Raised e) => (out, Raised e)
  | (out, Exited code) => (out, Exited code)
  end.

(** [try: m  except ... as e: handler e] *)
Definition try_except {A : Type} (m : io A) (handler : py_exn -> io A)
  : io A :=
  match m with
  | (out, Raised e) => let (out', r) := handler e in (out ++ out', r)
  | other => other
  end.

Notation "'let*' x ':=' m 'in' k" := (io_bind m (fun x => k))
  (at level 10, x name, m at level 100, k at level 200).
Notation "m >> k" := (io_bind m (fun _ => k))
  (at level 62, right associativity).

(** [str(n)] for an [int]. *)
Definition str_of_Z (n : Z) : string := NilZero.string_of_int (Z.to_int n).

(** [os.path.isabs] of [posixpath]: the path starts with a slash. *)
Definition isabs (path : string) : bool := startswith "/" path.

Definition validate_absolute_path (filepath : string) : io bool :=
  if negb (isabs filepath) then
    print ("Error: File path '" ++ filepath
           ++ "' is not an absolute path.")%string >>
    ret false
  else ret true.

Definition validate_file_size_with
    (fs : FileSystem) (filepath : string) (max_size_bytes : Z) : io bool :=
  match getsize fs filepath with
  | inl file_size =>
      if (file_size >? max_size_bytes)%Z then
        print ("Error: File '" ++ filepath
               ++ "' exceeds the maximum allowed size of 1 MB. File size: "
               ++ str_of_Z file_size ++ " bytes.")%string >>
        ret false
      else ret true
  | inr e =>
      if is_OSError (exn_cls e) then
        print ("Error checking file size for '" ++ filepath ++ "': "
               ++ exn_str e)%string >>
        ret false
      else raise e
  end.

Definition validate_file_size (fs : FileSystem) (filepath : string) : io bool :=
  validate_file_size_with fs filepath FileGate.default_max_size_bytes.

(** [with open(filepath, 'r', encoding='utf-8') as file: file.read()] *)
Definition open_read (fs : FileSystem) (path : string) : io string :=
  match read_text fs path with
  | inl content => ret content
  | inr e => raise e
  end.

Definition validate_yaml_file (fs : FileSystem) (filepath : string) : io bool :=
  let* absolute := validate_absolute_path filepath in
  if negb absolute then ret false
  else if negb (isfile fs filepath) then
    print ("Error: File '" ++ filepath ++ "' does not exist.")%string >>
    ret false
  else
    let* small := validate_file_size fs filepath in
    if negb small then ret false
    else
      try_except
        (let* content := open_read fs filepath in
         let (is_valid, error_message) :=
           as_tuple (basic_yaml_syntax_check content) in
         if is_valid then
           print ("Success: '" ++ filepath
                  ++ "' is a valid YAML file.")%string >>
           ret true
         else
           print ("Error: '" ++ filepath ++ "' is not a valid YAML file: "
                  ++ error_message)%string >>
           ret false)
        (fun e =>
           print ("Error reading file '" ++ filepath ++ "': "
                  ++ exn_str e)%string >>
           ret false).

(** [file.readlines()] on the text of the file: the lines, each with its
    newline when it has one. *)
Fixpoint readlines (text : string) : list string :=
  match text with
  | EmptyString => []
  | String c text' =>
      if (c =? NL)%char then String c EmptyString :: readlines text'
      else match readlines text' with
           | line :: lines => String c line :: lines
           | [] => [String c EmptyString]
           end
  end.

(** ["-" * 50] *)
Definition separator : string :=
  "--------------------------------------------------".

(** The [for] loop of [main] over [enumerate(file_lines, 1)], from line
    number [line_number]; it ends with the two counters. *)
Fixpoint process_lines (fs : FileSystem) (line_number : nat)
    (file_lines : list string) (success_count error_count : nat)
  : io (nat * nat) :=
  match file_lines with
  | [] => ret (success_count, error_count)
  | line :: rest =>
      let filepath := strip line in
      if is_empty filepath then
        process_lines fs (S line_number) rest success_count error_count
      else
        print ("Line " ++ str_of_nat line_number ++ ": " ++ filepath)%string >>
        let* valid := validate_yaml_file fs filepath in
        print separator >>
        if valid then
          process_lines fs (S line_number) rest (S success_count) error_count
        else
          process_lines fs (S line_number) rest success_count (S error_count)
  end.

(** The handlers of the [try] of [main], in their order. *)
Definition main_handler {A : Type} (input_filename : string) (e : py_exn)
  : io A :=
  match exn_cls e with
  | FileNotFoundError =>
      print ("Error: Could not find file '" ++ input_filename ++ "'")%string >>
      sys_exit 1
  | PermissionError =>
      print ("Error: No permission to read file '" ++ input_filename
             ++ "'")%string >>
      sys_exit 1
  | UnicodeDecodeError =>
      print ("Error: File '" ++ input_filename
             ++ "' contains invalid UTF-8 characters")%string >>
      sys_exit 1
  | OtherOSError | OtherException =>
      print ("Error: Failed to process file '" ++ input_filename ++ "': "
             ++ exn_str e)%string >>
      sys_exit 1
  end.

Definition summary (success_count error_count : nat) : string :=
  ("Summary: " ++ str_of_nat success_count ++ " valid YAML files, "
   ++ str_of_nat error_count ++ " errors")%string.

(** [main()], with [sys.argv] as [argv]. *)
Definition main (fs : FileSystem) (argv : list string) : io unit :=
  if negb (List.length argv =? 2) then
    print "Usage: python commands/paas_reporter.py <filename>" >>
    sys_exit 1
  else
    let input_filename := nth 1 argv EmptyString in
    if negb (isfile fs input_filename) then
      print ("Error: Input file '" ++ input_filename
             ++ "' does not exist.")%string >>
      sys_exit 1
    else
      print ("Processing file: " ++ input_filename)%string >>
      print separator >>
      let* counts :=
        try_except
          (let* text := open_read fs input_filename in
           process_lines fs 1 (readlines text) 0 0)
          (main_handler input_filename) in
      print (summary (fst counts) (snd counts)).

(** The paths the loop of [main] hands to [validate_yaml_file]. *)
Definition candidates (text : string) : list string :=
  filter (fun filepath => negb (is_empty filepath))
         (map strip (readlines text)).

(** [validate_yaml_file] returns [True] on the path. *)
Definition accepts (fs : FileSystem) (filepath : string) : bool :=
  match snd (validate_yaml_file fs filepath) with
  | Done true => true
  | _ => false
  end.

(** [validate_yaml_file] returns on the path, with either value. *)
Definition returns (fs : FileSystem) (filepath : string) : bool :=
  match snd (validate_yaml_file fs filepath) with
  | Done _ => true
  | _ => false
  end.

(** A file system for the examples: a manifest [list.txt] naming a valid
    file, a path that is not absolute and a file that does not exist. *)
Definition sample_fs : FileSystem :=
  mkFS (fun path => String.eqb path "/a.yml" || String.eqb path "list.txt")
       (fun _ => inl 10%Z)
       (fun path =>
          if String.eqb path "list.txt"
          then inl (join NL ["/a.yml"; "rel.yml"; ""; " /none.yml "; ""])
          else inl "a: 1").

End Driver.

(** ** Properties stated over the tracker *)

Definition strictly_increasing (widths : list nat) : Prop :=
  StronglySorted lt widths.

(** The stack grows strictly from bottom to top and the current width lies
    strictly above its top. *)
Definition nested (t : Tracker) : Prop :=
  strictly_increasing (bottom_to_top t) /\
  forall w, top t = Some w -> w < current_indent t.

(** The reading in which the top of the stack is the current width. *)
Definition top_is_current (t : Tracker) : Prop :=
  strictly_increasing (bottom_to_top t) /\
  top t = Some (current_indent t).

(** The same order seen from the top: current width first, then the stack. *)
Definition descending (t : Tracker) : Prop :=
  StronglySorted (fun a b => b < a) (current_indent t :: indentation_stack t).

(** [t] is the tracker at some point of the scan of [content]: after a
    prefix of its lines, none of which made the loop return. *)
Definition reached (content : string) (t : Tracker) : Prop :=
  exists pre post,
    split NL content = pre ++ post /\ tracker_after initial pre = Some t.

(** The tracker lets the width [indent] through: it is deeper than the
    current width, or the current width, or a width still on the stack. *)
Definition indent_follows (t : Tracker) (indent : nat) : Prop :=
  current_indent t < indent \/ indent = current_indent t \/
  In indent (indentation_stack t).

(** Every content line of [content] has a width the tracker lets through,
    the tracker being the one the scan has when it gets to the line. *)
Definition indentation_follows (content : string) : Prop :=
  forall pre line post t,
    split NL content = pre ++ line :: post ->
    skipped line = false ->
    tracker_after initial pre = Some t ->
    indent_follows t (indent_of line).

(** The shape of a content line, read as an alternative: a delimiter with
    a key of allowed characters, or a leading list-item marker. *)
Definition shape_either (line : string) : bool :=
  (contains ":" line && negb (search_not_word_space_hyphen (key_of line)))
  || startswith "-" (strip line).

(** The shape the checks let through: a delimiter or a leading list-item
    marker, and a key of allowed characters whenever there is a delimiter. *)
Definition shape_accepted (line : string) : bool :=
  (contains ":" line || startswith "-" (strip line))
  && negb (contains ":" line && search_not_word_space_hyphen (key_of line)).

(** The width [w] has been on the stack at some point of the scan of the
    lines [pre]: it was pushed while they were scanned. *)
Definition pushed_before (pre : list string) (w : nat) : Prop :=
  exists k t,
    tracker_after initial (firstn k pre) = Some t /\
    In w (indentation_stack t).

(** What a reported reason says of the line it is reported for, [t] being
    the tracker the scan has when it gets to the line. *)
Definition reason_holds (t : Tracker) (line : string) (r : Reason) : Prop :=
  match r with
  | MissingDelimiterOrListMarker =>
      contains ":" line = false /\ startswith "-" (strip line) = false
  | InvalidKeyCharacter key =>
      contains ":" line = true /\ key = key_of line /\
      search_not_word_space_hyphen key = true
  | TabCharacterFound =>
      contains TAB line = true /\
      (contains ":" line = true \/ startswith "-" (strip line) = true) /\
      (contains ":" line = true ->
       search_not_word_space_hyphen (key_of line) = false)
  | InconsistentIndentation =>
      contains TAB line = false /\
      indent_of line < current_indent t /\
      ~ In (indent_of line) (indentation_stack t)
  end.

(** ** Lemmas on the loop *)

Lemma scan_lines_app (pre rest : list string) : forall n t,
  scan_lines n t (pre ++ rest) =
  match tracker_after t pre with
  | Some t' => scan_lines (n + List.length pre) t' rest
  | None => scan_lines n t pre
  end.
Proof.
  induction pre as [|line pre IH]; intros n t; simpl.
  - now rewrite Nat.add_0_r.
  - destruct (scan_line line t) as [t'|r]; [|reflexivity].
    rewrite IH. now rewrite Nat.add_succ_r.
Qed.

Lemma tracker_after_app (pre rest : list string) : forall t,
  tracker_after t (pre ++ rest) =
  match tracker_after t pre with
  | Some t' => tracker_after t' rest
  | None => None
  end.
Proof.
  induction pre as [|line pre IH]; intros t; simpl; [reflexivity|].
  destruct (scan_line line t); [apply IH | reflexivity].
Qed.

Lemma tracker_after_valid (lines : list string) : forall n t,
  scan_lines n t lines = Valid <-> exists t', tracker_after t lines = Some t'.
Proof.
  induction lines as [|line lines IH]; intros n t; simpl.
  - split; [eauto | reflexivity].
  - destruct (scan_line line t) as [t'|r]; [apply IH|].
    split; [discriminate | intros [? ?]; discriminate].
Qed.

Lemma scan_lines_invalid (lines : list string) : forall n t k r,
  scan_lines n t lines = Invalid k r ->
  exists pre line post t',
    lines = pre ++ line :: post /\ k = n + List.length pre /\
    tracker_after t pre = Some t' /\ scan_line line t' = Return r.
Proof.
  induction lines as [|line lines IH]; intros n t k r H; simpl in H.
  - discriminate.
  - destruct (scan_line line t) as [t1|r1] eqn:E.
    + destruct (IH _ _ _ _ H) as (pre & l & post & t' & -> & -> & Ht & Hl).
      exists (line :: pre), l, post, t'. simpl. rewrite E.
      repeat split; auto; lia.
    + inversion H; subst. exists [], line, lines, t. simpl.
      repeat split; auto; lia.
Qed.

Lemma scan_reaches (pre post : list string) (line : string) (t : Tracker) :
  tracker_after initial pre = Some t ->
  scan_lines 1 initial (pre ++ line :: post) =
  match scan_line line t with
  | Return r => Invalid (S (List.length pre)) r
  | Go t' => scan_lines (S (S (List.length pre))) t' post
  end.
Proof.
  intros H. rewrite scan_lines_app, H. reflexivity.
Qed.

(** ** Lemmas on the checks of one line *)

Lemma skipped_scan_line (line : string) (t : Tracker) :
  skipped line = true -> scan_line line t = Go t.
Proof. unfold scan_line. now intros ->. Qed.

Lemma scan_line_return_content (line : string) (t : Tracker) (r : Reason) :
  scan_line line t = Return r -> skipped line = false.
Proof.
  unfold scan_line. destruct (skipped line); [discriminate | reflexivity].
Qed.

Lemma check_delimiter_go (line : string) :
  contains ":" line = true \/ startswith "-" (strip line) = true ->
  check_delimiter line = Go tt.
Proof.
  unfold check_delimiter. intros [-> | ->]; simpl; [reflexivity|].
  now rewrite andb_false_r.
Qed.

Lemma check_delimiter_return (line : string) :
  skipped line = false ->
  contains ":" line = false -> startswith "-" (strip line) = false ->
  check_delimiter line = Return MissingDelimiterOrListMarker.
Proof.
  unfold check_delimiter, skipped. intros Hs -> ->. simpl.
  apply orb_false_iff in Hs as [-> ->]. reflexivity.
Qed.

Lemma check_key_go (line : string) :
  (contains ":" line = true ->
   search_not_word_space_hyphen (key_of line) = false) ->
  check_key line = Go tt.
Proof.
  unfold check_key. destruct (contains ":" line); [|reflexivity].
  intros H. now rewrite H.
Qed.

Lemma check_shape_go (line : string) :
  contains ":" line = true \/ startswith "-" (strip line) = true ->
  (contains ":" line = true ->
   search_not_word_space_hyphen (key_of line) = false) ->
  contains TAB line = false ->
  check_shape line = Go tt.
Proof.
  intros Hd Hk Ht. unfold check_shape.
  rewrite (check_delimiter_go _ Hd), (check_key_go _ Hk). simpl.
  unfold check_tab. now rewrite Ht.
Qed.

(** ** Lemmas on the indentation tracker *)

Lemma sorted_snoc (R : nat -> nat -> Prop) (l : list nat) (a : nat) :
  StronglySorted R l -> Forall (fun x => R x a) l ->
  StronglySorted R (l ++ [a]).
Proof.
  induction 1 as [|b l Hs IH Hb]; intros Ha; simpl.
  - repeat constructor.
  - inversion Ha; subst. constructor; [now apply IH|].
    apply Forall_app. split; [assumption | now constructor].
Qed.

Lemma sorted_rev (R : nat -> nat -> Prop) (l : list nat) :
  StronglySorted R l -> StronglySorted (fun a b => R b a) (rev l).
Proof.
  induction 1 as [|a l Hs IH Ha]; simpl; [constructor|].
  apply sorted_snoc; [assumption|]. now apply Forall_rev.
Qed.

Lemma decreasing_rev (l : list nat) :
  StronglySorted (fun a b => b < a) l -> StronglySorted lt (rev l).
Proof. intros H. exact (sorted_rev _ _ H). Qed.

Lemma increasing_rev (l : list nat) :
  StronglySorted lt (rev l) -> StronglySorted (fun a b => b < a) l.
Proof.
  intros H. rewrite <- (rev_involutive l). exact (sorted_rev _ _ H).
Qed.

Lemma descending_nested (t : Tracker) : descending t -> nested t.
Proof.
  unfold descending, nested, bottom_to_top, top, strictly_increasing.
  intros H. inversion H as [|c l Hs Hc]; subst. split.
  - now apply decreasing_rev.
  - intros w Hw. destruct (indentation_stack t) as [|p rest]; simpl in Hw.
    + discriminate.
    + inversion Hw; subst. now inversion Hc.
Qed.

Lemma nested_descending (t : Tracker) : nested t -> descending t.
Proof.
  unfold descending, nested, bottom_to_top, top, strictly_increasing.
  intros [Hs Ht]. apply increasing_rev in Hs.
  constructor; [assumption|].
  destruct (indentation_stack t) as [|p rest]; [constructor|].
  specialize (Ht p eq_refl). inversion Hs as [|? ? _ Hp]; subst.
  constructor; [assumption|].
  eapply Forall_impl; [|exact Hp]. simpl. intros; lia.
Qed.

Lemma descending_initial : descending initial.
Proof. unfold descending, initial; simpl. repeat constructor. Qed.

Lemma pop_while_descending (indent : nat) (stack : list nat) : forall current,
  StronglySorted (fun a b => b < a) (current :: stack) ->
  descending (pop_while indent current stack).
Proof.
  induction stack as [|popped rest IH]; intros current H; simpl.
  - exact H.
  - destruct (indent <? current); [|exact H].
    apply IH. now inversion H.
Qed.

Lemma pop_while_finds (indent : nat) (stack : list nat) : forall current,
  StronglySorted (fun a b => b < a) (current :: stack) ->
  In indent stack -> indent < current ->
  current_indent (pop_while indent current stack) = indent.
Proof.
  induction stack as [|popped rest IH]; intros current H Hin Hlt; simpl.
  - destruct Hin.
  - apply Nat.ltb_lt in Hlt as Hb. rewrite Hb.
    inversion H as [|? ? Hs Hc]; subst.
    destruct Hin as [-> | Hin].
    + destruct rest as [|q rest]; simpl; [reflexivity|].
      now rewrite Nat.ltb_irrefl.
    + apply IH; [assumption | assumption |].
      inversion Hs as [|? ? _ Hp]; subst.
      rewrite Forall_forall in Hp. now apply Hp.
Qed.

Lemma existsb_eqb_In (w : nat) (l : list nat) :
  existsb (Nat.eqb w) l = true <-> In w l.
Proof.
  rewrite existsb_exists. split.
  - intros (x & Hx & E). apply Nat.eqb_eq in E. now subst.
  - intros H. exists w. split; [assumption | apply Nat.eqb_refl].
Qed.

Lemma observe_descending (indent : nat) (t t' : Tracker) :
  descending t -> observe indent t = Go t' -> descending t'.
Proof.
  unfold observe, descending. destruct t as [stack current]; simpl.
  intros H. destruct (current <? indent) eqn:E1.
  - intros [= <-]; simpl. constructor; [assumption|].
    apply Nat.ltb_lt in E1. constructor; [assumption|].
    inversion H as [|? ? _ Hc]; subst.
    eapply Forall_impl; [|exact Hc]. simpl. intros; lia.
  - destruct (indent <? current) eqn:E2; [|now intros [= <-]].
    destruct (existsb (Nat.eqb indent) stack); simpl; [|discriminate].
    destruct (indent =? current_indent (pop_while indent current stack));
      simpl; [|discriminate].
    intros [= <-]. now apply pop_while_descending.
Qed.

Lemma observe_return (indent : nat) (t : Tracker) :
  indent < current_indent t -> ~ In indent (indentation_stack t) ->
  observe indent t = Return InconsistentIndentation.
Proof.
  unfold observe. intros Hlt Hin.
  assert ((current_indent t <? indent) = false) as -> by (apply Nat.ltb_ge; lia).
  apply Nat.ltb_lt in Hlt as ->.
  destruct (existsb (Nat.eqb indent) (indentation_stack t)) eqn:E.
  - apply existsb_eqb_In in E. contradiction.
  - reflexivity.
Qed.

Lemma observe_go (indent : nat) (t : Tracker) :
  descending t ->
  current_indent t < indent \/ indent = current_indent t \/
  In indent (indentation_stack t) ->
  exists t', observe indent t = Go t'.
Proof.
  unfold observe, descending. intros H Hc.
  destruct (current_indent t <? indent) eqn:E1; [eauto|].
  destruct (indent <? current_indent t) eqn:E2; [|eauto].
  apply Nat.ltb_ge in E1. apply Nat.ltb_lt in E2.
  destruct Hc as [Hc | [Hc | Hc]]; try lia.
  apply existsb_eqb_In in Hc as Hb. rewrite Hb. simpl.
  rewrite (pop_while_finds _ _ _ H Hc E2), Nat.eqb_refl. simpl. eauto.
Qed.

Lemma scan_line_descending (line : string) (t t' : Tracker) :
  descending t -> scan_line line t = Go t' -> descending t'.
Proof.
  unfold scan_line. intros H. destruct (skipped line).
  - now intros [= <-].
  - destruct (check_shape line) as [[]|r]; simpl; [|discriminate].
    now apply observe_descending.
Qed.

Lemma tracker_after_descending (lines : list string) : forall t t',
  descending t -> tracker_after t lines = Some t' -> descending t'.
Proof.
  induction lines as [|line lines IH]; intros t t' H; simpl.
  - now intros [= <-].
  - destruct (scan_line line t) as [t1|r] eqn:E; [|discriminate].
    apply IH. eapply scan_line_descending; eassumption.
Qed.

Lemma reached_descending (content : string) (t : Tracker) :
  reached content t -> descending t.
Proof.
  intros (pre & post & _ & H).
  eapply tracker_after_descending; [apply descending_initial | exact H].
Qed.

Lemma scan_lines_invalid_range (lines : list string) (n : nat) (t : Tracker)
    (k : nat) (r : Reason) :
  scan_lines n t lines = Invalid k r -> n <= k < n + List.length lines.
Proof.
  intros H. apply scan_lines_invalid in H
    as (pre & line & post & t' & -> & -> & _ & _).
  rewrite length_app. simpl. lia.
Qed.

(** ** The file gate *)

(** C5: the size gate accepts a file of exactly 1,048,576 bytes, rejects
    one of 1,048,577 bytes, and when the stat call raises [OSError] it
    returns [False]: nothing leaves the function. *)
Theorem size_gate_boundary_and_stat_error :
  FileGate.validate_file_size (FileGate.Size 1048576) = FileGate.Returns true /\
  FileGate.validate_file_size (FileGate.Size 1048577) = FileGate.Returns false /\
  forall msg,
    FileGate.validate_file_size (FileGate.Raise (FileGate.OSError msg))
    = FileGate.Returns false.
Proof. repeat split. Qed.

(** ** The scanner *)

(** C6: two runs on the same content give the same verdict, whatever the
    first run left in the process-wide log; the tracker starts from
    [initial] in each. *)
Theorem scan_twice_same_verdict (content : string) (log : Log) :
  let first := basic_yaml_syntax_check_logged content log in
  let second := basic_yaml_syntax_check_logged content (snd first) in
  fst first = fst second /\
  fst first = as_tuple (basic_yaml_syntax_check content).
Proof.
  unfold basic_yaml_syntax_check_logged.
  destruct (basic_yaml_syntax_check content); simpl; split; reflexivity.
Qed.

(** C2, the reading of the claim: after the lines [a:] and [  b:] the stack
    is [0] and the current width is 2, so the top of the stack is not the
    current width. *)
Lemma top_of_stack_is_not_current :
  reached (join NL ["a:"; "  b:"]) (mkTracker [0] 2) /\
  ~ top_is_current (mkTracker [0] 2).
Proof.
  split.
  - exists ["a:"; "  b:"], []. split; reflexivity.
  - intros [_ H]. discriminate H.
Qed.

(** C2, amended: the stack is strictly increasing from bottom to top and
    the current width is strictly greater than its top.  This holds at the
    start of a scan, every iteration of the loop that goes on keeps it, and
    so it holds at every point of every scan. *)
Theorem indentation_stack_nested :
  nested initial /\
  (forall line t t', nested t -> scan_line line t = Go t' -> nested t') /\
  (forall content t, reached content t -> nested t).
Proof.
  split; [|split].
  - apply descending_nested, descending_initial.
  - intros line t t' H E. apply descending_nested.
    eapply scan_line_descending; [apply nested_descending, H | exact E].
  - intros content t H. eapply descending_nested, reached_descending, H.
Qed.

Lemma indentation_stack_nested_witness : nested (mkTracker [2; 0] 6).
Proof.
  apply (proj1 (proj2 indentation_stack_nested) "      c:" (mkTracker [0] 2)).
  - apply (proj2 (proj2 indentation_stack_nested) (join NL ["a:"; "  b:"])).
    exists ["a:"; "  b:"], []. split; reflexivity.
  - reflexivity.
Defined.

(** C8: a line that is empty once stripped, or whose stripped form starts
    with [#], leaves the tracker as it is and cannot be the line of an
    invalid verdict, whatever else it contains: the scan goes as if the
    line were empty. *)
Theorem blank_or_comment_line_excluded (line : string) :
  is_empty (strip line) = true \/ startswith "#" (strip line) = true ->
  (forall t, scan_line line t = Go t) /\
  (forall pre post n t,
     scan_lines n t (pre ++ line :: post)
     = scan_lines n t (pre ++ EmptyString :: post)) /\
  (forall content pre post n r,
     split NL content = pre ++ line :: post ->
     basic_yaml_syntax_check content = Invalid n r ->
     n <> S (List.length pre)).
Proof.
  intros H.
  assert (Hs : skipped line = true).
  { unfold skipped. destruct H as [-> | ->]; [reflexivity|].
    apply orb_true_r. }
  split; [|split].
  - intros t. now apply skipped_scan_line.
  - intros pre post n t. rewrite !scan_lines_app.
    destruct (tracker_after t pre) as [t'|]; [|reflexivity].
    simpl. now rewrite (skipped_scan_line _ _ Hs).
  - intros content pre post n r E. unfold basic_yaml_syntax_check.
    rewrite E, scan_lines_app.
    destruct (tracker_after initial pre) as [t'|].
    + simpl. rewrite (skipped_scan_line _ _ Hs). intros V.
      apply scan_lines_invalid_range in V. lia.
    + intros V. apply scan_lines_invalid_range in V. lia.
Qed.

Lemma blank_or_comment_line_excluded_witness :
  basic_yaml_syntax_check
    (join NL ["a:"; String "#" (String TAB "x y"); "b:"]) = Valid /\
  forall t, scan_line (String "#" (String TAB "x y")) t = Go t.
Proof.
  split; [reflexivity|].
  apply (blank_or_comment_line_excluded (String "#" (String TAB "x y"))).
  right. reflexivity.
Defined.

(** C10: a content line with a tab, no [:] and no leading [-] is reported
    for the missing delimiter, not for the tab: of the checks on a line the
    delimiter check comes first. *)
Theorem missing_delimiter_reported_before_tab
    (content : string) (pre post : list string) (line : string) (t : Tracker) :
  split NL content = pre ++ line :: post ->
  tracker_after initial pre = Some t ->
  skipped line = false ->
  contains TAB line = true ->
  contains ":" line = false ->
  startswith "-" (strip line) = false ->
  check_shape line = Return MissingDelimiterOrListMarker /\
  basic_yaml_syntax_check content
  = Invalid (S (List.length pre)) MissingDelimiterOrListMarker.
Proof.
  intros E Ht Hs _ Hc Hl.
  assert (Hd : check_shape line = Return MissingDelimiterOrListMarker).
  { unfold check_shape. now rewrite (check_delimiter_return _ Hs Hc Hl). }
  split; [exact Hd|].
  unfold basic_yaml_syntax_check. rewrite E, (scan_reaches _ _ _ _ Ht).
  unfold scan_line. now rewrite Hs, Hd.
Qed.

Lemma missing_delimiter_reported_before_tab_witness :
  basic_yaml_syntax_check (join NL ["a:"; String "x" (String TAB "y")])
  = Invalid 2 MissingDelimiterOrListMarker.
Proof.
  apply (missing_delimiter_reported_before_tab
           (join NL ["a:"; String "x" (String TAB "y")])
           ["a:"] [] (String "x" (String TAB "y")) initial);
    reflexivity.
Defined.

(** C1, the claim as it reads: a comment line with a tab in it is skipped,
    and a line with a tab and no delimiter is reported for the delimiter. *)
Lemma tab_line_not_reported_as_tab :
  contains TAB (String "#" (String TAB "x")) = true /\
  basic_yaml_syntax_check (String "#" (String TAB "x")) = Valid /\
  contains TAB (String "x" (String TAB "y")) = true /\
  basic_yaml_syntax_check (String "x" (String TAB "y"))
  = Invalid 1 MissingDelimiterOrListMarker.
Proof. repeat split. Qed.

(** C1, amended: when the scan gets to a content line that has a tab in
    it, and the line has a delimiter or a leading list-item marker and its
    key (if it has a delimiter) is made of allowed characters, the verdict
    is invalid with the tab reason at that line's 1-based position. *)
Theorem tab_character_reported
    (content : string) (pre post : list string) (line : string) (t : Tracker) :
  split NL content = pre ++ line :: post ->
  tracker_after initial pre = Some t ->
  skipped line = false ->
  contains TAB line = true ->
  contains ":" line = true \/ startswith "-" (strip line) = true ->
  (contains ":" line = true ->
   search_not_word_space_hyphen (key_of line) = false) ->
  basic_yaml_syntax_check content
  = Invalid (S (List.length pre)) TabCharacterFound.
Proof.
  intros E Ht Hs Htab Hd Hk.
  unfold basic_yaml_syntax_check. rewrite E, (scan_reaches _ _ _ _ Ht).
  unfold scan_line, check_shape. rewrite Hs.
  rewrite (check_delimiter_go _ Hd), (check_key_go _ Hk). simpl.
  unfold check_tab. now rewrite Htab.
Qed.

Lemma tab_character_reported_witness :
  basic_yaml_syntax_check (join NL ["a:"; ("  b:" ++ String TAB "1")%string])
  = Invalid 2 TabCharacterFound.
Proof.
  apply (tab_character_reported
           (join NL ["a:"; ("  b:" ++ String TAB "1")%string])
           ["a:"] [] ("  b:" ++ String TAB "1")%string initial).
  - reflexivity.
  - reflexivity.
  - reflexivity.
  - reflexivity.
  - left. reflexivity.
  - intros _. reflexivity.
Defined.

(** ** The key of a line *)

Lemma split1_first (sep : ascii) (s : string) :
  contains sep s = true ->
  exists before rest,
    split1 sep s = [before; rest] /\
    s = (before ++ String sep rest)%string /\
    contains sep before = false.
Proof.
  induction s as [|c s IH]; simpl; [discriminate|].
  destruct (Ascii.eqb c sep) eqn:E; simpl.
  - intros _. apply Ascii.eqb_eq in E. subst c.
    exists EmptyString, s. repeat split.
  - intros H. destruct (IH H) as (before & rest & -> & -> & Hb).
    exists (String c before), rest. simpl. rewrite E, Hb. repeat split.
Qed.

Lemma search_finds (c : ascii) (s : string) :
  contains c s = true ->
  isword c = false -> isspace c = false -> c <> "-"%char ->
  search_not_word_space_hyphen s = true.
Proof.
  intros Hc Hw Hs Hh. induction s as [|d s IH]; simpl in *; [discriminate|].
  apply orb_true_iff in Hc as [Hc | Hc].
  - apply Ascii.eqb_eq in Hc. subst d. rewrite Hw, Hs. simpl.
    apply Ascii.eqb_neq in Hh. now rewrite Hh.
  - rewrite (IH Hc). apply orb_true_r.
Qed.

(** C9: on a content line with a delimiter the key is the stripped text
    before the first [:], and when that key has a character that is not a
    word character, not whitespace and not a hyphen, the verdict is invalid
    with the key reason at that line. *)
Theorem invalid_key_character_reported
    (content : string) (pre post : list string) (line : string) (t : Tracker)
    (c : ascii) :
  split NL content = pre ++ line :: post ->
  tracker_after initial pre = Some t ->
  skipped line = false ->
  contains ":" line = true ->
  contains c (key_of line) = true ->
  isword c = false -> isspace c = false -> c <> "-"%char ->
  (exists before rest,
     line = (before ++ String ":" rest)%string /\
     contains ":" before = false /\
     key_of line = strip before) /\
  basic_yaml_syntax_check content
  = Invalid (S (List.length pre)) (InvalidKeyCharacter (key_of line)).
Proof.
  intros E Ht Hs Hd Hc Hw Hsp Hh. split.
  - destruct (split1_first _ _ Hd) as (before & rest & E1 & E2 & Hb).
    exists before, rest. unfold key_of. rewrite E1. now repeat split.
  - unfold basic_yaml_syntax_check. rewrite E, (scan_reaches _ _ _ _ Ht).
    unfold scan_line, check_shape. rewrite Hs.
    rewrite (check_delimiter_go _ (or_introl Hd)). simpl.
    unfold check_key. rewrite Hd, (search_finds _ _ Hc Hw Hsp Hh).
    reflexivity.
Qed.

Lemma invalid_key_character_reported_witness :
  basic_yaml_syntax_check "a.b: 1" = Invalid 1 (InvalidKeyCharacter "a.b").
Proof.
  apply (invalid_key_character_reported "a.b: 1" [] [] "a.b: 1" initial ".");
    try reflexivity.
  discriminate.
Defined.

(** ** Indentation *)

Lemma stack_pushed_before (pre : list string) (t : Tracker) (w : nat) :
  tracker_after initial pre = Some t -> In w (indentation_stack t) ->
  pushed_before pre w.
Proof.
  intros Ht Hin. exists (List.length pre), t. now rewrite firstn_all.
Qed.

(** C4, the claim as it reads: in [a:], [    b:], [  c] the third line is a
    content line of width 2, below the current width 4, and 2 was never
    pushed; the line has no delimiter, and the verdict names it for that,
    not for its indentation: the checks on the text of a line come before
    the indentation check. *)
Lemma never_pushed_width_not_reported_as_indentation :
  split NL (join NL ["a:"; "    b:"; "  c"]) = ["a:"; "    b:"] ++ "  c" :: [] /\
  tracker_after initial ["a:"; "    b:"] = Some (mkTracker [0] 4) /\
  skipped "  c" = false /\
  indent_of "  c" < current_indent (mkTracker [0] 4) /\
  ~ pushed_before ["a:"; "    b:"] (indent_of "  c") /\
  basic_yaml_syntax_check (join NL ["a:"; "    b:"; "  c"])
  = Invalid 3 MissingDelimiterOrListMarker /\
  basic_yaml_syntax_check (join NL ["a:"; "    b:"; "  c"])
  <> Invalid 3 InconsistentIndentation.
Proof.
  repeat split; try discriminate.
  - apply Nat.ltb_lt. reflexivity.
  - intros (k & t & Ht & Hin).
    destruct k as [|[|[|k]]]; simpl in Ht; injection Ht as <-;
      simpl in Hin; intuition discriminate.
Qed.

(** C4, amended: when the scan gets to a content line that passes the
    three checks on its text (delimiter or list-item marker, key, tab), and
    the line's width is smaller than the current width and was never pushed
    on the stack, the verdict is invalid with the indentation reason at
    that line. *)
Theorem inconsistent_indentation_reported
    (content : string) (pre post : list string) (line : string) (t : Tracker) :
  split NL content = pre ++ line :: post ->
  tracker_after initial pre = Some t ->
  skipped line = false ->
  check_shape line = Go tt ->
  indent_of line < current_indent t ->
  ~ pushed_before pre (indent_of line) ->
  basic_yaml_syntax_check content
  = Invalid (S (List.length pre)) InconsistentIndentation.
Proof.
  intros E Ht Hs Hc Hlt Hp.
  unfold basic_yaml_syntax_check. rewrite E, (scan_reaches _ _ _ _ Ht).
  unfold scan_line. rewrite Hs, Hc. simpl.
  rewrite observe_return; [reflexivity | assumption |].
  intros Hin. apply Hp. eapply stack_pushed_before; eassumption.
Qed.

Lemma inconsistent_indentation_reported_witness :
  basic_yaml_syntax_check (join NL ["a:"; "    b:"; "  c:"])
  = Invalid 3 InconsistentIndentation.
Proof.
  apply (inconsistent_indentation_reported
           (join NL ["a:"; "    b:"; "  c:"])
           ["a:"; "    b:"] [] "  c:" (mkTracker [0] 4)).
  - reflexivity.
  - reflexivity.
  - reflexivity.
  - reflexivity.
  - apply Nat.ltb_lt. reflexivity.
  - intros (k & t & Ht & Hin).
    destruct k as [|[|[|k]]]; simpl in Ht; injection Ht as <-;
      simpl in Hin; intuition discriminate.
Defined.

(** ** The first violation *)

Lemma scan_line_return_cases (line : string) (t : Tracker) (r : Reason) :
  scan_line line t = Return r ->
  skipped line = false /\
  (check_shape line = Return r \/
   check_shape line = Go tt /\ observe (indent_of line) t = Return r).
Proof.
  unfold scan_line. destruct (skipped line); [discriminate|].
  destruct (check_shape line) as [[]|r'] eqn:E; simpl; intros H.
  - split; [reflexivity | right; now split].
  - injection H as <-. split; [reflexivity | left; reflexivity].
Qed.

(** C7: an invalid verdict names the first line, from the top, on which a
    check of the loop fails: the lines before it scan as valid, the line is
    a content line that fails one of the checks on its text or the
    indentation check, and the verdict is the same whatever lines follow;
    the verdict carries that one line and reason. *)
Theorem first_violation_wins (content : string) (n : nat) (r : Reason) :
  basic_yaml_syntax_check content = Invalid n r ->
  exists pre line post t,
    split NL content = pre ++ line :: post /\
    n = S (List.length pre) /\
    scan_lines 1 initial pre = Valid /\
    tracker_after initial pre = Some t /\
    skipped line = false /\
    (check_shape line = Return r \/
     check_shape line = Go tt /\ observe (indent_of line) t = Return r) /\
    forall content' post',
      split NL content' = pre ++ line :: post' ->
      basic_yaml_syntax_check content' = Invalid n r.
Proof.
  unfold basic_yaml_syntax_check. intros H.
  apply scan_lines_invalid in H as (pre & line & post & t & E & -> & Ht & Hl).
  exists pre, line, post, t.
  destruct (scan_line_return_cases _ _ _ Hl) as [Hs Hc].
  repeat split; try assumption.
  - apply tracker_after_valid. eauto.
  - intros content' post' E'. rewrite E', (scan_reaches _ _ _ _ Ht), Hl.
    reflexivity.
Qed.

Lemma first_violation_wins_witness :
  exists pre line post t,
    split NL (join NL ["a:"; "b"; "c.d: 1"]) = pre ++ line :: post /\
    2 = S (List.length pre) /\
    scan_lines 1 initial pre = Valid /\
    tracker_after initial pre = Some t /\
    skipped line = false /\
    (check_shape line = Return MissingDelimiterOrListMarker \/
     check_shape line = Go tt /\
     observe (indent_of line) t = Return MissingDelimiterOrListMarker) /\
    forall content' post',
      split NL content' = pre ++ line :: post' ->
      basic_yaml_syntax_check content'
      = Invalid 2 MissingDelimiterOrListMarker.
Proof.
  apply (first_violation_wins (join NL ["a:"; "b"; "c.d: 1"])
           2 MissingDelimiterOrListMarker).
  reflexivity.
Defined.

(** ** Content that passes *)

Lemma shape_accepted_go (line : string) :
  shape_accepted line = true -> contains TAB line = false ->
  check_shape line = Go tt.
Proof.
  unfold shape_accepted. intros H Ht.
  apply andb_true_iff in H as [Hd Hk].
  apply orb_true_iff in Hd. apply negb_true_iff in Hk.
  apply check_shape_go; try assumption.
  intros Hc. rewrite Hc in Hk. exact Hk.
Qed.

Lemma scan_lines_all_pass (lines : list string) : forall n t0,
  descending t0 ->
  (forall line, In line lines -> skipped line = false ->
     check_shape line = Go tt) ->
  (forall pre line post t,
     lines = pre ++ line :: post -> skipped line = false ->
     tracker_after t0 pre = Some t -> indent_follows t (indent_of line)) ->
  scan_lines n t0 lines = Valid.
Proof.
  induction lines as [|l lines IH]; intros n t0 Hd Hshape Hind; simpl.
  - reflexivity.
  - unfold scan_line. destruct (skipped l) eqn:Hs.
    + apply IH; [assumption | intros; apply Hshape; simpl; auto |].
      intros pre line post t E Hl Ht.
      apply (Hind (l :: pre) line post t); [now rewrite E | assumption |].
      simpl. now rewrite (skipped_scan_line _ _ Hs).
    + rewrite (Hshape l (or_introl eq_refl) Hs). simpl.
      destruct (observe_go (indent_of l) t0 Hd) as [t1 Ho].
      { apply (Hind [] l lines t0); auto. }
      rewrite Ho. apply IH.
      * eapply observe_descending; eassumption.
      * intros; apply Hshape; simpl; auto.
      * intros pre line post t E Hl Ht.
        apply (Hind (l :: pre) line post t); [now rewrite E | assumption |].
        simpl. unfold scan_line.
        now rewrite Hs, (Hshape l (or_introl eq_refl) Hs); simpl; rewrite Ho.
Qed.

(** C3, the claim as it reads: the list item [- a.b: 1] begins with the
    list-item marker, has no tab and width 0, and is rejected for its key. *)
Lemma list_item_key_is_checked :
  (forall line, In line (split NL "- a.b: 1") -> skipped line = false ->
     shape_either line = true) /\
  (forall line, In line (split NL "- a.b: 1") -> contains TAB line = false) /\
  indentation_follows "- a.b: 1" /\
  basic_yaml_syntax_check "- a.b: 1" = Invalid 1 (InvalidKeyCharacter "- a.b").
Proof.
  repeat split.
  - intros line [<- | []] _. reflexivity.
  - intros line [<- | []]. reflexivity.
  - intros pre line post t E _ Ht.
    change (split NL "- a.b: 1") with ["- a.b: 1"] in E.
    destruct pre as [|p pre]; simpl in E.
    + injection E as <- <-. injection Ht as <-. right; left; reflexivity.
    + injection E as _ E. destruct pre; discriminate E.
Qed.

(** C3, amended: when every content line has a delimiter or a leading
    list-item marker, has a key of allowed characters whenever it has a
    delimiter, no line has a tab, and every content line's width is deeper
    than the current width, equal to it, or still on the stack, the scan
    returns the valid verdict. *)
Theorem well_shaped_content_is_valid (content : string) :
  (forall line, In line (split NL content) -> skipped line = false ->
     shape_accepted line = true) ->
  (forall line, In line (split NL content) -> contains TAB line = false) ->
  indentation_follows content ->
  basic_yaml_syntax_check content = Valid.
Proof.
  intros Hshape Htab Hind. unfold basic_yaml_syntax_check.
  apply scan_lines_all_pass.
  - apply descending_initial.
  - intros line Hin Hs. apply shape_accepted_go; auto.
  - exact Hind.
Qed.

Lemma well_shaped_content_is_valid_witness :
  basic_yaml_syntax_check (join NL ["a:"; "  - x"; "# c"; "b: 1"]) = Valid.
Proof.
  apply (well_shaped_content_is_valid (join NL ["a:"; "  - x"; "# c"; "b: 1"])).
  - intros line [<- | [<- | [<- | [<- | []]]]] Hs;
      first [reflexivity | discriminate Hs].
  - intros line [<- | [<- | [<- | [<- | []]]]]; reflexivity.
  - intros pre line post t E Hs Ht.
    change (split NL (join NL ["a:"; "  - x"; "# c"; "b: 1"]))
      with ["a:"; "  - x"; "# c"; "b: 1"] in E.
    destruct pre as [|p0 pre]; simpl in E.
    { injection E as <- <-. injection Ht as <-. right; left; reflexivity. }
    injection E as <- E.
    destruct pre as [|p1 pre]; simpl in E.
    { injection E as <- <-. injection Ht as <-. left.
      apply Nat.ltb_lt. reflexivity. }
    injection E as <- E.
    destruct pre as [|p2 pre]; simpl in E.
    { injection E as <- <-. discriminate Hs. }
    injection E as <- E.
    destruct pre as [|p3 pre]; simpl in E.
    { injection E as <- <-. injection Ht as <-. right; right; left.
      reflexivity. }
    injection E as _ E. destruct pre; discriminate E.
Defined.

(** ** Further properties of the scanner *)

Lemma check_shape_cases (line : string) :
  skipped line = false ->
  check_shape line =
  if negb (contains ":" line) && negb (startswith "-" (strip line))
  then Return MissingDelimiterOrListMarker
  else if contains ":" line && search_not_word_space_hyphen (key_of line)
  then Return (InvalidKeyCharacter (key_of line))
  else if contains TAB line then Return TabCharacterFound
  else Go tt.
Proof.
  unfold skipped, check_shape, check_delimiter, check_key, check_tab,
    return_if.
  intros Hs. apply orb_false_iff in Hs as [-> ->].
  destruct (contains ":" line); simpl.
  - destruct (search_not_word_space_hyphen (key_of line)); simpl;
      [reflexivity|].
    destruct (contains TAB line); reflexivity.
  - destruct (startswith "-" (strip line)); simpl; [|reflexivity].
    destruct (contains TAB line); reflexivity.
Qed.

Lemma observe_return_inv (indent : nat) (t : Tracker) (r : Reason) :
  descending t -> observe indent t = Return r ->
  r = InconsistentIndentation /\
  indent < current_indent t /\ ~ In indent (indentation_stack t).
Proof.
  unfold observe, descending. intros H.
  destruct (current_indent t <? indent) eqn:E1; [discriminate|].
  destruct (indent <? current_indent t) eqn:E2; [|discriminate].
  apply Nat.ltb_lt in E2.
  destruct (existsb (Nat.eqb indent) (indentation_stack t)) eqn:E3; simpl.
  - apply existsb_eqb_In in E3.
    rewrite (pop_while_finds _ _ _ H E3 E2), Nat.eqb_refl. discriminate.
  - intros [= <-]. repeat split; [assumption|].
    intros Hin. apply existsb_eqb_In in Hin. congruence.
Qed.

Lemma observe_go_inv (indent : nat) (t t' : Tracker) :
  observe indent t = Go t' -> indent_follows t indent.
Proof.
  unfold observe, indent_follows.
  destruct (current_indent t <? indent) eqn:E1.
  - intros _. left. now apply Nat.ltb_lt.
  - destruct (indent <? current_indent t) eqn:E2.
    + destruct (existsb (Nat.eqb indent) (indentation_stack t)) eqn:E3;
        simpl; [|discriminate].
      intros _. right; right. now apply existsb_eqb_In.
    + intros _. right; left.
      apply Nat.ltb_ge in E1. apply Nat.ltb_ge in E2. lia.
Qed.

Lemma scan_lines_valid_app (pre rest : list string) (n : nat) (t : Tracker) :
  scan_lines n t (pre ++ rest) = Valid ->
  exists t', tracker_after t pre = Some t' /\
             scan_lines (n + List.length pre) t' rest = Valid.
Proof.
  rewrite scan_lines_app. destruct (tracker_after t pre) as [t'|] eqn:E.
  - eauto.
  - intros H. apply tracker_after_valid in H as [t' H]. congruence.
Qed.

(** X1: the scan returns the valid verdict exactly when every content line
    has a delimiter or a leading list-item marker, a key of allowed
    characters if it has a delimiter, and no tab, and every content line's
    width is deeper than the current width, equal to it, or on the stack. *)
Theorem valid_iff_every_content_line_passes (content : string) :
  basic_yaml_syntax_check content = Valid <->
  (forall line, In line (split NL content) -> skipped line = false ->
     shape_accepted line = true /\ contains TAB line = false) /\
  indentation_follows content.
Proof.
  unfold basic_yaml_syntax_check. split.
  - intros V.
    assert (Hline : forall pre line post t,
      split NL content = pre ++ line :: post -> skipped line = false ->
      tracker_after initial pre = Some t ->
      check_shape line = Go tt /\ indent_follows t (indent_of line)).
    { intros pre line post t E Hs Ht. rewrite E in V.
      apply scan_lines_valid_app in V as (t' & Ht' & V).
      rewrite Ht in Ht'. injection Ht' as <-. simpl in V.
      unfold scan_line in V. rewrite Hs in V.
      destruct (check_shape line) as [[]|r]; simpl in V; [|discriminate].
      split; [reflexivity|].
      destruct (observe (indent_of line) t) as [t1|r] eqn:Ho; [|discriminate].
      eapply observe_go_inv, Ho. }
    split.
    + intros line Hin Hs. apply in_split in Hin as (pre & post & E).
      assert (exists t, tracker_after initial pre = Some t) as [t Ht].
      { rewrite E in V. apply scan_lines_valid_app in V as (t & Ht & _).
        eauto. }
      destruct (Hline _ _ _ _ E Hs Ht) as [Hc _].
      rewrite (check_shape_cases _ Hs) in Hc. unfold shape_accepted.
      destruct (contains ":" line), (startswith "-" (strip line)),
        (search_not_word_space_hyphen (key_of line)),
        (contains TAB line); simpl in *; try discriminate; auto.
    + intros pre line post t E Hs Ht. now apply (Hline _ _ _ _ E Hs Ht).
  - intros [Hshape Hind]. apply scan_lines_all_pass.
    + apply descending_initial.
    + intros line Hin Hs. destruct (Hshape line Hin Hs).
      now apply shape_accepted_go.
    + exact Hind.
Qed.

(** X2: the reason of an invalid verdict is true of the line it names: the
    line has no delimiter and no leading list-item marker, or its key (the
    one in the message) has a character that is not allowed, or it has a
    tab after passing the two checks before, or its width is below the
    current one and not on the stack. *)
Theorem reported_reason_holds (content : string) (n : nat) (r : Reason) :
  basic_yaml_syntax_check content = Invalid n r ->
  exists pre line post t,
    split NL content = pre ++ line :: post /\
    n = S (List.length pre) /\
    tracker_after initial pre = Some t /\
    skipped line = false /\
    reason_holds t line r.
Proof.
  unfold basic_yaml_syntax_check. intros H.
  apply scan_lines_invalid in H as (pre & line & post & t & E & -> & Ht & Hl).
  exists pre, line, post, t.
  destruct (scan_line_return_cases _ _ _ Hl) as [Hs Hc].
  repeat split; try assumption.
  rewrite (check_shape_cases _ Hs) in Hc.
  destruct Hc as [Hc | [Hc Ho]].
  - destruct (contains ":" line) eqn:E1,
      (startswith "-" (strip line)) eqn:E2,
      (search_not_word_space_hyphen (key_of line)) eqn:E3,
      (contains TAB line) eqn:E4; simpl in Hc;
      try discriminate; inversion Hc; subst r; simpl;
      repeat split; auto; intros; congruence.
  - apply observe_return_inv in Ho as (-> & Hlt & Hin);
      [|eapply tracker_after_descending;
        [apply descending_initial | exact Ht]].
    simpl. repeat split; try assumption.
    destruct (negb (contains ":" line) && negb (startswith "-" (strip line)));
      [discriminate|].
    destruct (contains ":" line && search_not_word_space_hyphen (key_of line));
      [discriminate|].
    destruct (contains TAB line); [discriminate | reflexivity].
Qed.

Lemma reported_reason_holds_witness :
  exists pre line post t,
    split NL (join NL ["a:"; "    b:"; "  c:"]) = pre ++ line :: post /\
    3 = S (List.length pre) /\
    tracker_after initial pre = Some t /\
    skipped line = false /\
    reason_holds t line InconsistentIndentation.
Proof.
  apply (reported_reason_holds (join NL ["a:"; "    b:"; "  c:"])
           3 InconsistentIndentation).
  reflexivity.
Defined.

Lemma pop_while_cut (indent : nat) (below above : list nat) : forall current,
  StronglySorted (fun a b => b < a) (current :: above ++ indent :: below) ->
  pop_while indent current (above ++ indent :: below) = mkTracker below indent.
Proof.
  induction above as [|a above IH]; intros current H; simpl.
  - inversion H as [|? ? _ Hc]; subst. inversion Hc as [|? ? Hlt _]; subst.
    apply Nat.ltb_lt in Hlt as ->.
    destruct below as [|q below]; simpl; [reflexivity|].
    now rewrite Nat.ltb_irrefl.
  - inversion H as [|? ? Hs Hc]; subst.
    assert (Hlt : indent < current).
    { rewrite Forall_forall in Hc. apply Hc. right. apply in_elt. }
    apply Nat.ltb_lt in Hlt as ->. now apply IH.
Qed.

Lemma observe_enclosing (indent current : nat) (above below : list nat) :
  StronglySorted (fun a b => b < a) (current :: above ++ indent :: below) ->
  observe indent (mkTracker (above ++ indent :: below) current)
  = Go (mkTracker below indent).
Proof.
  intros H. unfold observe. simpl.
  assert (Hlt : indent < current).
  { inversion H as [|? ? _ Hc]; subst. rewrite Forall_forall in Hc.
    apply Hc, in_elt. }
  assert ((current <? indent) = false) as -> by (apply Nat.ltb_ge; lia).
  apply Nat.ltb_lt in Hlt as ->.
  assert (existsb (Nat.eqb indent) (above ++ indent :: below) = true) as ->
    by (apply existsb_eqb_In, in_elt).
  simpl. rewrite (pop_while_cut _ _ _ _ H). simpl.
  now rewrite Nat.eqb_refl.
Qed.

(** X3: at every point of a scan, going back to a width that is on the
    stack is accepted: that width becomes the current one and the stack is
    cut to what lies below it.  The comparison after the [while] loop never
    makes the function return. *)
Theorem return_to_enclosing_width (content : string) (t : Tracker)
    (indent : nat) (above below : list nat) :
  reached content t ->
  indentation_stack t = above ++ indent :: below ->
  observe indent t = Go (mkTracker below indent).
Proof.
  intros Hr E. apply reached_descending in Hr. unfold descending in Hr.
  destruct t as [stack current]. simpl in *. subst stack.
  now apply observe_enclosing.
Qed.

Lemma return_to_enclosing_width_witness :
  observe 2 (mkTracker [4; 2; 0] 6) = Go (mkTracker [0] 2).
Proof.
  apply (return_to_enclosing_width
           (join NL ["a:"; "  b:"; "    c:"; "      d:"])
           (mkTracker [4; 2; 0] 6) 2 [4] [0]).
  - exists ["a:"; "  b:"; "    c:"; "      d:"], []. split; reflexivity.
  - reflexivity.
Defined.

Lemma pop_while_bottom (indent : nat) (stack : list nat) : forall current,
  last (current_indent (pop_while indent current stack)
        :: indentation_stack (pop_while indent current stack)) 0
  = last (current :: stack) 0.
Proof.
  induction stack as [|popped rest IH]; intros current; [reflexivity|].
  cbn [pop_while]. destruct (indent <? current); [|reflexivity].
  rewrite IH. reflexivity.
Qed.

Lemma observe_bottom (indent : nat) (t t' : Tracker) :
  observe indent t = Go t' ->
  last (current_indent t' :: indentation_stack t') 0
  = last (current_indent t :: indentation_stack t) 0.
Proof.
  unfold observe. destruct (current_indent t <? indent).
  - intros [= <-]. reflexivity.
  - destruct (indent <? current_indent t); [|now intros [= <-]].
    destruct (existsb (Nat.eqb indent) (indentation_stack t)); simpl;
      [|discriminate].
    destruct (indent =? current_indent
                (pop_while indent (current_indent t) (indentation_stack t)));
      simpl; [|discriminate].
    intros [= <-]. apply pop_while_bottom.
Qed.

Lemma tracker_after_bottom (lines : list string) : forall t t',
  tracker_after t lines = Some t' ->
  last (current_indent t' :: indentation_stack t') 0
  = last (current_indent t :: indentation_stack t) 0.
Proof.
  induction lines as [|line lines IH]; intros t t'; cbn [tracker_after].
  - now intros [= <-].
  - unfold scan_line. destruct (skipped line); [apply IH|].
    destruct (check_shape line) as [[]|r]; cbn [bind]; [|discriminate].
    destruct (observe (indent_of line) t) as [t1|r] eqn:Ho; [|discriminate].
    intros H. etransitivity; [apply (IH _ _ H) | exact (observe_bottom _ _ _ Ho)].
Qed.

(** X4: at every point of a scan the bottom of the stack is width 0, so a
    content line at width 0 that passes the checks on its text is never
    rejected for its indentation, and after it the tracker is as at the
    start of a scan. *)
Theorem width_zero_resets_tracker (content : string) (t : Tracker)
    (line : string) :
  reached content t ->
  skipped line = false ->
  check_shape line = Go tt ->
  indent_of line = 0 ->
  scan_line line t = Go initial.
Proof.
  intros Hr Hs Hc Hi. unfold scan_line. rewrite Hs, Hc, Hi. simpl.
  assert (Hd := reached_descending _ _ Hr).
  destruct Hr as (pre & post & _ & Ht).
  apply tracker_after_bottom in Ht.
  destruct t as [stack current]. unfold descending in Hd.
  change (last (current :: stack) 0 = 0) in Ht.
  change (StronglySorted (fun a b => b < a) (current :: stack)) in Hd.
  destruct (exists_last (l := current :: stack)) as (l & z & E);
    [discriminate|].
  rewrite E, last_last in Ht. subst z.
  destruct l as [|c above]; simpl in E.
  - injection E as -> ->. reflexivity.
  - injection E as -> ->.
    apply (observe_enclosing 0 c above [] Hd).
Qed.

Lemma width_zero_resets_tracker_witness :
  scan_line "c: 1" (mkTracker [2; 0] 6) = Go initial.
Proof.
  apply (width_zero_resets_tracker
           (join NL ["a:"; "  b:"; "      - x"]) (mkTracker [2; 0] 6) "c: 1").
  - exists ["a:"; "  b:"; "      - x"], []. split; reflexivity.
  - reflexivity.
  - reflexivity.
  - reflexivity.
Defined.

(** ** Lines of a text *)

Lemma split_nonempty (sep : ascii) (s : string) : split sep s <> [].
Proof.
  destruct s as [|c s]; simpl; [discriminate|].
  destruct (Ascii.eqb c sep); [discriminate|].
  destruct (split sep s); discriminate.
Qed.

Lemma split_app (sep : ascii) (a b : string) :
  split sep (a ++ String sep b)%string = split sep a ++ split sep b.
Proof.
  induction a as [|c a IH]; simpl.
  - now rewrite Ascii.eqb_refl.
  - destruct (Ascii.eqb c sep); [now rewrite IH|].
    rewrite IH. destruct (split sep a) eqn:E; [|reflexivity].
    now apply split_nonempty in E.
Qed.

Lemma split_no_sep (sep : ascii) (s : string) :
  contains sep s = false -> split sep s = [s].
Proof.
  induction s as [|c s IH]; simpl; [reflexivity|].
  intros H. apply orb_false_iff in H as [-> H]. now rewrite (IH H).
Qed.

(** X5: the lines the scanner numbers are the text cut at its newlines:
    there is at least one, none contains a newline, and joined with
    newlines they give the text back. *)
Theorem lines_of_text (content : string) :
  split NL content <> [] /\
  Forall (fun line => contains NL line = false) (split NL content) /\
  join NL (split NL content) = content.
Proof.
  split; [apply split_nonempty|].
  induction content as [|c s IH]; simpl.
  - split; [repeat constructor | reflexivity].
  - destruct IH as [IH1 IH2].
    destruct (split NL s) as [|piece pieces] eqn:Es;
      [now apply split_nonempty in Es|].
    destruct (Ascii.eqb c NL) eqn:E.
    + apply Ascii.eqb_eq in E. subst c. split.
      * constructor; [reflexivity | assumption].
      * change (String NL (join NL (piece :: pieces)) = String NL s).
        now rewrite IH2.
    + inversion_clear IH1 as [|? ? Hp Hps]. split.
      * constructor; [|assumption]. simpl. now rewrite E, Hp.
      * rewrite <- IH2. destruct pieces; reflexivity.
Qed.

(** X6: the line number of an invalid verdict is a line of the text: it is
    at least 1 and at most the number of lines. *)
Theorem reported_line_number_in_range (content : string) (n : nat)
    (r : Reason) :
  basic_yaml_syntax_check content = Invalid n r ->
  1 <= n <= List.length (split NL content).
Proof.
  unfold basic_yaml_syntax_check. intros H.
  apply scan_lines_invalid_range in H. lia.
Qed.

Lemma reported_line_number_in_range_witness :
  1 <= 2 <= List.length (split NL (join NL ["a:"; "b"; "c:"])).
Proof.
  apply (reported_line_number_in_range (join NL ["a:"; "b"; "c:"]) 2
           MissingDelimiterOrListMarker).
  reflexivity.
Defined.

(** X7: text added after a newline cannot repair what comes before it: an
    invalid verdict stays the same verdict, and so every text that is valid
    is valid up to each of its newlines. *)
Theorem verdict_of_extended_text (content more : string) :
  (forall n r,
     basic_yaml_syntax_check content = Invalid n r ->
     basic_yaml_syntax_check (content ++ String NL more) = Invalid n r) /\
  (basic_yaml_syntax_check (content ++ String NL more) = Valid ->
   basic_yaml_syntax_check content = Valid).
Proof.
  unfold basic_yaml_syntax_check. rewrite split_app, scan_lines_app. split.
  - intros n r H.
    destruct (tracker_after initial (split NL content)) as [t|] eqn:E;
      [|exact H].
    assert (V : scan_lines 1 initial (split NL content) = Valid)
      by (apply tracker_after_valid; eauto).
    congruence.
  - destruct (tracker_after initial (split NL content)) as [t|] eqn:E.
    + intros _. apply tracker_after_valid. eauto.
    + auto.
Qed.

Lemma verdict_of_extended_text_witness :
  basic_yaml_syntax_check ("a.b: 1" ++ String NL "c: 1")
  = Invalid 1 (InvalidKeyCharacter "a.b").
Proof.
  apply (proj1 (verdict_of_extended_text "a.b: 1" "c: 1")).
  reflexivity.
Defined.

(** X8: a blank line or a comment line added at the end of a text, and so
    a newline at its end, does not change the verdict. *)
Theorem trailing_blank_or_comment_line (content line : string) :
  contains NL line = false ->
  skipped line = true ->
  basic_yaml_syntax_check (content ++ String NL line)
  = basic_yaml_syntax_check content.
Proof.
  intros Hn Hs. unfold basic_yaml_syntax_check.
  rewrite split_app, (split_no_sep _ _ Hn), scan_lines_app.
  destruct (tracker_after initial (split NL content)) as [t|] eqn:E.
  - simpl. rewrite (skipped_scan_line _ _ Hs).
    symmetry. apply tracker_after_valid. eauto.
  - reflexivity.
Qed.

Lemma trailing_blank_or_comment_line_witness :
  basic_yaml_syntax_check ("a:" ++ String NL "")
  = basic_yaml_syntax_check "a:".
Proof.
  apply (trailing_blank_or_comment_line "a:" ""); reflexivity.
Defined.

(** ** Whitespace at the end of a line *)

Lemma rstrip_app_space (c : ascii) (s : string) :
  isspace c = true -> rstrip (s ++ String c EmptyString) = rstrip s.
Proof.
  intros Hc. induction s as [|d s IH]; simpl.
  - now rewrite Hc.
  - now rewrite IH.
Qed.

Lemma lstrip_app_space (c : ascii) (s : string) :
  isspace c = true ->
  lstrip (s ++ String c EmptyString) =
  if is_empty (lstrip s) then EmptyString
  else (lstrip s ++ String c EmptyString)%string.
Proof.
  intros Hc. induction s as [|d s IH]; simpl.
  - now rewrite Hc.
  - destruct (isspace d); [exact IH | reflexivity].
Qed.

Lemma strip_app_space (c : ascii) (s : string) :
  isspace c = true -> strip (s ++ String c EmptyString) = strip s.
Proof.
  intros Hc. unfold strip. rewrite (lstrip_app_space _ _ Hc).
  destruct (lstrip s) as [|d s']; [reflexivity|].
  cbn [is_empty]. now apply rstrip_app_space.
Qed.

Lemma contains_app (x : ascii) (s u : string) :
  contains x (s ++ u) = contains x s || contains x u.
Proof.
  induction s as [|d s IH]; simpl; [reflexivity|].
  now rewrite IH, orb_assoc.
Qed.

Lemma split1_app_head (sep : ascii) (s u : string) :
  contains sep s = true ->
  hd EmptyString (split1 sep (s ++ u)) = hd EmptyString (split1 sep s).
Proof.
  induction s as [|d s IH]; simpl; [discriminate|].
  destruct (Ascii.eqb d sep); simpl; [reflexivity|].
  intros H. specialize (IH H).
  destruct (split1 sep (s ++ u)), (split1 sep s); simpl in *; congruence.
Qed.

Lemma length_app_one (c : ascii) (s : string) :
  String.length (s ++ String c EmptyString) = S (String.length s).
Proof. induction s as [|d s IH]; simpl; [reflexivity | now rewrite IH]. Qed.

Lemma content_line_lstrip (line : string) :
  skipped line = false -> is_empty (lstrip line) = false.
Proof.
  unfold skipped, strip. destruct (lstrip line); [discriminate | reflexivity].
Qed.

Lemma lstrip_length (s : string) : String.length (lstrip s) <= String.length s.
Proof.
  induction s as [|d s IH]; simpl; [lia|].
  destruct (isspace d); simpl; lia.
Qed.

(** X9: whitespace other than a tab at the end of a line (a carriage
    return, a space) changes nothing: the line is skipped, rejected with
    the same reason and key, or accepted with the same tracker, as without
    it. *)
Theorem trailing_whitespace_ignored (line : string) (c : ascii)
    (t : Tracker) :
  isspace c = true ->
  c <> TAB ->
  scan_line (line ++ String c EmptyString) t = scan_line line t.
Proof.
  intros Hc Htab.
  assert (Hcolon : Ascii.eqb c ":" = false).
  { destruct (Ascii.eqb_spec c ":") as [-> |]; [discriminate Hc | reflexivity]. }
  assert (Hnt : Ascii.eqb c TAB = false) by now apply Ascii.eqb_neq.
  assert (Hstrip := strip_app_space c line Hc).
  unfold scan_line, skipped. rewrite Hstrip. fold (skipped line).
  destruct (skipped line) eqn:Hs; [reflexivity|].
  assert (Hs' : skipped (line ++ String c EmptyString) = false)
    by (unfold skipped; now rewrite Hstrip).
  rewrite (check_shape_cases _ Hs), (check_shape_cases _ Hs'), Hstrip.
  rewrite !contains_app. simpl. rewrite Hcolon, Hnt, !orb_false_r.
  assert (Hi : indent_of (line ++ String c EmptyString) = indent_of line).
  { unfold indent_of. rewrite (lstrip_app_space _ _ Hc).
    rewrite (content_line_lstrip _ Hs), !length_app_one.
    pose proof (lstrip_length line). lia. }
  rewrite Hi.
  destruct (contains ":" line) eqn:Hd; [|reflexivity].
  unfold key_of. now rewrite (split1_app_head _ _ _ Hd).
Qed.

Lemma trailing_whitespace_ignored_witness :
  scan_line ("  b: 1" ++ String "013"%char EmptyString) (mkTracker [] 0)
  = scan_line "  b: 1" (mkTracker [] 0).
Proof.
  apply (trailing_whitespace_ignored "  b: 1" "013"%char (mkTracker [] 0)).
  - reflexivity.
  - discriminate.
Defined.

Lemma observe_return_reason (indent : nat) (t : Tracker) (r : Reason) :
  observe indent t = Return r -> r = InconsistentIndentation.
Proof.
  unfold observe. destruct (current_indent t <? indent); [discriminate|].
  destruct (indent <? current_indent t); [|discriminate].
  destruct (existsb (Nat.eqb indent) (indentation_stack t)); simpl;
    [|now intros [= <-]].
  destruct (indent =? current_indent
              (pop_while indent (current_indent t) (indentation_stack t)));
    simpl; [discriminate | now intros [= <-]].
Qed.

(** X10: a line is rejected for a missing delimiter exactly when it is a
    content line with no [:] anywhere and no [-] at the start of its
    stripped form, whatever the tracker and whatever else it contains. *)
Theorem missing_delimiter_iff (line : string) (t : Tracker) :
  scan_line line t = Return MissingDelimiterOrListMarker <->
  skipped line = false /\ contains ":" line = false /\
  startswith "-" (strip line) = false.
Proof.
  split.
  - intros H. destruct (scan_line_return_cases _ _ _ H) as [Hs Hc].
    split; [assumption|].
    rewrite (check_shape_cases _ Hs) in Hc.
    destruct Hc as [Hc | [_ Ho]];
      [|apply observe_return_reason in Ho; discriminate].
    destruct (contains ":" line), (startswith "-" (strip line)),
      (search_not_word_space_hyphen (key_of line)), (contains TAB line);
      simpl in Hc; try discriminate; auto.
  - intros (Hs & Hc & Hd). unfold scan_line. rewrite Hs.
    unfold check_shape. now rewrite (check_delimiter_return _ Hs Hc Hd).
Qed.

(** X11: a text with a tab on a content line is never valid. *)
Theorem tab_on_content_line_not_valid (content : string)
    (pre post : list string) (line : string) :
  split NL content = pre ++ line :: post ->
  skipped line = false ->
  contains TAB line = true ->
  basic_yaml_syntax_check content <> Valid.
Proof.
  intros E Hs Ht V. unfold basic_yaml_syntax_check in V. rewrite E in V.
  apply scan_lines_valid_app in V as (t & _ & V). simpl in V.
  unfold scan_line in V. rewrite Hs, (check_shape_cases _ Hs), Ht in V.
  destruct (negb (contains ":" line) && negb (startswith "-" (strip line)));
    [discriminate|].
  destruct (contains ":" line && search_not_word_space_hyphen (key_of line));
    discriminate.
Qed.

Lemma tab_on_content_line_not_valid_witness :
  basic_yaml_syntax_check (join NL ["a:"; "b:" ++ String TAB "1"; "x"])%string
  <> Valid.
Proof.
  apply (tab_on_content_line_not_valid
           (join NL ["a:"; "b:" ++ String TAB "1"; "x"])%string
           ["a:"] ["x"] ("b:" ++ String TAB "1")%string); reflexivity.
Defined.

(** ** The file checks and the batch loop *)

Module DriverProps.
Import Driver.

Ltac validate_cases fs filepath :=
  unfold accepts, returns, validate_yaml_file, validate_absolute_path,
    validate_file_size, validate_file_size_with, open_read, try_except,
    io_bind, print, ret, raise;
  destruct (isabs filepath) eqn:Habs; cbn [negb];
  [ destruct (isfile fs filepath) eqn:Hfile; cbn [negb];
    [ destruct (getsize fs filepath) as [sz|err] eqn:Hsize;
      [ destruct (sz >? FileGate.default_max_size_bytes)%Z eqn:Hbig;
        cbn [negb];
        [ | destruct (read_text fs filepath) as [text|err] eqn:Hread;
            [ destruct (basic_yaml_syntax_check text) eqn:Hscan | ] ]
      | destruct (is_OSError (exn_cls err)) eqn:Hos ]
    | ]
  | ]; cbn.

(** [validate_yaml_file] either returns after exactly one [print], or an
    exception leaves it before anything is printed. *)
Lemma validate_yaml_file_ends (fs : FileSystem) (filepath : string) :
  (exists msg b, validate_yaml_file fs filepath = ([msg], Done b)) \/
  (exists e, validate_yaml_file fs filepath = ([], Raised e)).
Proof.
  validate_cases fs filepath; eauto.
Qed.

(** X12: [validate_yaml_file] returns [True] exactly when the path is
    absolute, it is a file, its size is at most 1,048,576 bytes, it can be
    read as text, and the scan of the text is valid. *)
Theorem validate_yaml_file_true_iff (fs : FileSystem) (filepath : string) :
  snd (validate_yaml_file fs filepath) = Done true <->
  isabs filepath = true /\
  isfile fs filepath = true /\
  (exists size, getsize fs filepath = inl size /\ (size <= 1048576)%Z) /\
  (exists content, read_text fs filepath = inl content /\
                   basic_yaml_syntax_check content = Valid).
Proof.
  split.
  - validate_cases fs filepath; intros H; try discriminate H.
    repeat split; [| eauto].
    exists sz. split; [reflexivity|].
    unfold FileGate.default_max_size_bytes in Hbig. lia.
  - intros (Habs' & Hfile' & (size' & Hsize' & Hle) & (c & Hread' & Hv)).
    validate_cases fs filepath; try congruence.
    unfold FileGate.default_max_size_bytes in Hbig. injection Hsize' as <-. lia.
Qed.

(** X13: a path that is not absolute is rejected with the message for it,
    whatever the file system holds: the file is not looked at. *)
Theorem relative_path_rejected (fs : FileSystem) (filepath : string) :
  isabs filepath = false ->
  validate_yaml_file fs filepath
  = (["Error: File path '" ++ filepath ++ "' is not an absolute path."]%string,
     Done false).
Proof.
  intros H. unfold validate_yaml_file, validate_absolute_path. rewrite H.
  reflexivity.
Qed.

Lemma relative_path_rejected_witness :
  validate_yaml_file (mkFS (fun _ => true) (fun _ => inl 0%Z)
                        (fun _ => inl "a: 1")) "conf/a.yml"
  = (["Error: File path 'conf/a.yml' is not an absolute path."], Done false).
Proof.
  apply (relative_path_rejected
           (mkFS (fun _ => true) (fun _ => inl 0%Z) (fun _ => inl "a: 1"))
           "conf/a.yml").
  reflexivity.
Defined.

(** X14: when [validate_yaml_file] returns it has printed exactly one
    line; the line starts with [Success: ] when it returns [True] and with
    [Error] when it returns [False]. *)
Theorem validate_yaml_file_prints_one_line (fs : FileSystem)
    (filepath : string) (out : list string) (b : bool) :
  validate_yaml_file fs filepath = (out, Done b) ->
  exists msg,
    out = [msg] /\
    prefix (if b then "Success: " else "Error") msg = true.
Proof.
  validate_cases fs filepath; intros [= <- <-]; eexists;
    (split; [reflexivity|]); reflexivity.
Qed.

(** X15: an exception leaves [validate_yaml_file] exactly when the path is
    absolute, is a file, and [os.path.getsize] raises an exception that is
    not an [OSError]; it is that exception, and nothing has been printed.
    Whatever reading the file raises is reported and turned into [False]. *)
Theorem validate_yaml_file_raises_iff (fs : FileSystem) (filepath : string)
    (out : list string) (e : py_exn) :
  validate_yaml_file fs filepath = (out, Raised e) <->
  out = [] /\ isabs filepath = true /\ isfile fs filepath = true /\
  getsize fs filepath = inr e /\ is_OSError (exn_cls e) = false.
Proof.
  split.
  - validate_cases fs filepath; intros H; try discriminate H.
    injection H as <- <-. auto.
  - intros (-> & Habs' & Hfile' & Hsize' & Hos').
    validate_cases fs filepath; congruence.
Qed.

Lemma returned_path (fs : FileSystem) (filepath msg : string) (b : bool) :
  validate_yaml_file fs filepath = ([msg], Done b) ->
  returns fs filepath = true /\ accepts fs filepath = b.
Proof.
  unfold returns, accepts. intros ->. simpl. now destruct b.
Qed.

Lemma raised_path (fs : FileSystem) (filepath : string) (e : py_exn) :
  validate_yaml_file fs filepath = ([], Raised e) ->
  returns fs filepath = false.
Proof. unfold returns. now intros ->. Qed.

(** The loop of [main]: it ends with the counters when every path it
    hands to [validate_yaml_file] makes that function return, and with an
    exception otherwise. *)
Lemma process_lines_ends (fs : FileSystem) (file_lines : list string) :
  forall line_number success_count error_count,
  let paths := filter (fun filepath => negb (is_empty filepath))
                      (map strip file_lines) in
  let valid := List.length (filter (accepts fs) paths) in
  (forallb (returns fs) paths = true ->
   exists out,
     process_lines fs line_number file_lines success_count error_count
     = (out, Done (success_count + valid,
                   error_count + (List.length paths - valid))) /\
     List.length out = 3 * List.length paths) /\
  (forallb (returns fs) paths = false ->
   exists out e,
     process_lines fs line_number file_lines success_count error_count
     = (out, Raised e)).
Proof.
  induction file_lines as [|line rest IH]; intros n s e; cbn zeta.
  - split; [|discriminate]. intros _. exists []. simpl.
    now rewrite !Nat.add_0_r.
  - cbn [process_lines map filter].
    destruct (is_empty (strip line)) eqn:Hempty; cbn [negb]; [apply IH|].
    cbn [forallb List.length].
    destruct (validate_yaml_file_ends fs (strip line))
      as [(msg & b & Hv) | (err & Hv)].
    + destruct (returned_path _ _ _ _ Hv) as [Hr Ha].
      cbn [filter forallb]. rewrite Hr, Ha.
      unfold io_bind at 1 2 3. unfold print. rewrite Hv. cbn [andb].
      destruct b; cbn [filter List.length].
      * destruct (IH (S n) (S s) e) as [IH1 IH2]. split.
        -- intros H. destruct (IH1 H) as (out & -> & Hlen).
           eexists. split.
           ++ cbn [app]. apply f_equal2; [reflexivity|]. apply f_equal.
              apply f_equal2; lia.
           ++ cbn [app List.length]. rewrite Hlen. lia.
        -- intros H. destruct (IH2 H) as (out & err & ->). simpl. eauto.
      * destruct (IH (S n) s (S e)) as [IH1 IH2]. split.
        -- intros H. destruct (IH1 H) as (out & -> & Hlen).
           eexists. split.
           ++ pose proof (filter_length_le (accepts fs)
                (filter (fun filepath => negb (is_empty filepath))
                        (map strip rest))).
              cbn [app]. apply f_equal2; [reflexivity|]. apply f_equal.
              apply f_equal2; lia.
           ++ cbn [app List.length]. rewrite Hlen. lia.
        -- intros H. destruct (IH2 H) as (out & err & ->). simpl. eauto.
    + cbn [filter forallb]. rewrite (raised_path _ _ _ Hv). cbn [andb].
      split; [discriminate|].
      intros _. unfold io_bind at 1 2. unfold print. rewrite Hv. simpl. eauto.
Qed.

Lemma main_handler_exits (input_filename : string) (e : py_exn) :
  exists msg,
    @main_handler (nat * nat) input_filename e = ([msg], Exited 1).
Proof.
  unfold main_handler. destruct (exn_cls e); simpl; eauto.
Qed.

(** X16: [main] ends with exit status 0 or by [sys.exit(1)], never with an
    exception; it ends with status 0 exactly when it has two arguments,
    the manifest is a file that can be read, and no path in it makes
    [validate_yaml_file] raise.  Files that fail validation do not change
    the exit status. *)
Theorem main_exit_status (fs : FileSystem) (argv : list string) :
  (snd (main fs argv) = Done tt \/ snd (main fs argv) = Exited 1) /\
  (snd (main fs argv) = Done tt <->
   List.length argv = 2 /\
   isfile fs (nth 1 argv EmptyString) = true /\
   exists text,
     read_text fs (nth 1 argv EmptyString) = inl text /\
     forallb (returns fs) (candidates text) = true).
Proof.
  unfold main, candidates.
  destruct (List.length argv =? 2) eqn:Hargs; cbn [negb].
  2:{ simpl. split; [now right|]. apply Nat.eqb_neq in Hargs.
      split; [discriminate | intros (H & _); contradiction]. }
  apply Nat.eqb_eq in Hargs.
  destruct (isfile fs (nth 1 argv EmptyString)) eqn:Hfile; cbn [negb].
  2:{ simpl. split; [now right|].
      split; [discriminate | intros (_ & H & _); discriminate]. }
  unfold try_except, open_read, io_bind, print, ret, raise.
  destruct (read_text fs (nth 1 argv EmptyString)) as [text|e] eqn:Hread.
  - destruct (process_lines_ends fs (readlines text) 1 0 0) as [P1 P2].
    cbn zeta in P1, P2.
    destruct (forallb (returns fs)
                (filter (fun filepath => negb (is_empty filepath))
                        (map strip (readlines text)))) eqn:Hall.
    + destruct (P1 eq_refl) as (out & Hp & _). rewrite Hp. cbn.
      split; [now left|]. split; [|reflexivity].
      intros _. repeat split; auto. exists text. auto.
    + destruct (P2 eq_refl) as (out & err & Hp). rewrite Hp. cbn.
      destruct (main_handler_exits (nth 1 argv EmptyString) err)
        as (msg & Hm).
      rewrite Hm. cbn.
      split; [now right|]. split; [discriminate|].
      intros (_ & _ & text' & [= <-] & Hall'). congruence.
  - destruct (main_handler_exits (nth 1 argv EmptyString) e) as (msg & Hm).
    rewrite Hm. cbn.
    split; [now right|]. split; [discriminate|].
    intros (_ & _ & text' & Ht & _). discriminate.
Qed.

(** X17: when [main] ends with status 0 the last line it prints is the
    summary, with the number of paths of the manifest on which
    [validate_yaml_file] returned [True] and the number of the other
    paths; before it come the two header lines and three lines for each
    path (the path, the result, the separator). *)
Theorem main_summary_counts (fs : FileSystem) (argv : list string)
    (out : list string) (text : string) :
  main fs argv = (out, Done tt) ->
  read_text fs (nth 1 argv EmptyString) = inl text ->
  let paths := candidates text in
  let valid := List.length (filter (accepts fs) paths) in
  last out EmptyString = summary valid (List.length paths - valid) /\
  List.length out = 3 + 3 * List.length paths.
Proof.
  unfold main, candidates. intros H Hread. cbn zeta.
  destruct (List.length argv =? 2); cbn [negb] in H; [|discriminate H].
  destruct (isfile fs (nth 1 argv EmptyString)); cbn [negb] in H;
    [|discriminate H].
  unfold try_except, open_read, io_bind, print, ret, raise in H.
  rewrite Hread in H.
  destruct (process_lines_ends fs (readlines text) 1 0 0) as [P1 P2].
  cbn zeta in P1, P2.
  destruct (forallb (returns fs)
              (filter (fun filepath => negb (is_empty filepath))
                      (map strip (readlines text)))) eqn:Hall.
  - destruct (P1 eq_refl) as (out1 & Hp & Hlen).
    rewrite Hp in H. cbn in H. injection H as <-.
    split.
    + change (?a :: ?b :: out1 ++ [?c]) with ([a; b] ++ out1 ++ [c]).
      rewrite app_assoc, last_last. reflexivity.
    + cbn [List.length]. rewrite length_app. cbn [List.length]. lia.
  - destruct (P2 eq_refl) as (out1 & err & Hp). rewrite Hp in H.
    destruct (main_handler_exits (nth 1 argv EmptyString) err) as (msg & Hm).
    cbn in H. rewrite Hm in H. discriminate H.
Qed.

Lemma validate_yaml_file_prints_one_line_witness :
  exists msg,
    ["Error: File '/none.yml' does not exist."] = [msg] /\
    prefix "Error" msg = true.
Proof.
  apply (validate_yaml_file_prints_one_line sample_fs "/none.yml"
           ["Error: File '/none.yml' does not exist."] false).
  reflexivity.
Defined.

Lemma main_summary_counts_witness :
  last (fst (main sample_fs ["paas_reporter.py"; "list.txt"])) EmptyString
  = "Summary: 1 valid YAML files, 2 errors" /\
  List.length (fst (main sample_fs ["paas_reporter.py"; "list.txt"])) = 12.
Proof.
  apply (main_summary_counts sample_fs ["paas_reporter.py"; "list.txt"]
           (fst (main sample_fs ["paas_reporter.py"; "list.txt"]))
           (join NL ["/a.yml"; "rel.yml"; ""; " /none.yml "; ""]));
    reflexivity.
Defined.

End DriverProps.
